(** * selsup: the parameter editor of [src/index.tsx]

    A shallow embedding of the editing core of the [ParamEditor] component:
    the reducer, the seeding of the working values, the validation pass, the
    renderer registry and the imperative handle, together with the way React
    re-runs the component body on every render.

    Conventions.
    - Parameter ids are integers ([Z]); values are text ([string]).
    - The error object [Record<number, string>] is a [gmap Z string].
    - The renderer object [Record<string, FC>] is a [gmap string Renderer].
    - A JavaScript array supplied by the host has an identity.  The only
      place where the component compares identities of host data is the
      dependency list of [useImperativeHandle], which holds [model.colors];
      the colour array is therefore a reference ([loc]) into a store of
      colour lists that the component never reads. *)

From Stdlib Require Import Ascii.
From stdpp Require Import gmap strings list fin_maps pretty.

Set Warnings "-register-all".

(** ** Data model (lines 16-61) *)

Inductive ParamKind :=
  | StringParam
  | NumberParam (min max : option Z)
  | SelectParam (options : list string).

Record Param := { id : Z; name : string; kind : ParamKind }.

(** The discriminant field [type] of the union [Param]. *)
Definition type (p : Param) : string :=
  match kind p with
  | StringParam => "string"
  | NumberParam _ _ => "number"
  | SelectParam _ => "select"
  end.

Record ParamValue := { paramId : Z; value : string }.

Module Color.
Record t := { id : Z; name : string; hex : string }.
End Color.

(** Identity of a colour array owned by the host. *)
Definition loc := nat.

(** The host's arrays of colours, by identity.  No definition of the
    component takes a store as an argument. *)
Definition ColorStore := loc -> list Color.t.

Record Model := { paramValues : list ParamValue; colors : loc }.

Inductive Renderer :=
  | StringParamEditor
  | NumberParamEditor
  | SelectParamEditor
  | HostRenderer (k : nat).

Record Props := {
  params : list Param;
  model : Model;
  renderers : option (gmap string Renderer)
}.

(** [type State = ParamValue[]] *)
Abbreviation State := (list ParamValue).

Inductive Action :=
  | CHANGE (paramId : Z) (value : string)
  | RESET (initial : list ParamValue).

(** ** The reducer (lines 62-71) *)

Definition reducer (state : State) (action : Action) : State :=
  match action with
  | CHANGE i v =>
      map (fun pv => if (paramId pv =? i)%Z
                     then {| paramId := paramId pv; value := v |}
                     else pv) state
  | RESET initial => initial
  end.

(** ** Seeding of the working values (lines 207-210) *)

Definition initialValues (ps : list Param) (m : Model) : list ParamValue :=
  map (fun param =>
         let found := find (fun pv => (paramId pv =? id param)%Z) (paramValues m) in
         {| paramId := id param;
            value := match found with Some f => value f | None => "" end |})
      ps.

(** ** Validation (lines 226-233) *)

(** [!pv.value] on a string: only the empty string is falsy. *)
Definition falsy (s : string) : bool :=
  match s with EmptyString => true | String _ _ => false end.

Definition validate_errs (values : State) : gmap Z string :=
  fold_left (fun errs pv =>
               if falsy (value pv) then <[paramId pv := "Required field"]> errs
               else errs)
            values ∅.

(** The pair of what [validate] hands to [setErrors] and what it returns. *)
Definition validate (values : State) : gmap Z string * bool :=
  let errs := validate_errs values in
  (errs, Nat.eqb (length (elements (dom errs))) 0).

(** ** Renderer registry (lines 192-196 and 244-246, 254) *)

Definition defaultRenderers : gmap string Renderer :=
  {[ "string" := StringParamEditor;
     "number" := NumberParamEditor;
     "select" := SelectParamEditor ]}.

(** [{ ...defaultRenderers, ...renderers }]: the later spread wins, which
    is the left-biased union with the override on the left. *)
Definition useRenders (rs : option (gmap string Renderer)) : gmap string Renderer :=
  match rs with
  | Some r => r ∪ defaultRenderers
  | None => defaultRenderers
  end.

(** [useRenders[param.type]] *)
Definition dispatchRenderer (rs : option (gmap string Renderer)) (p : Param)
  : option Renderer :=
  useRenders rs !! type p.

(** ** The imperative handle (lines 215-222)

    The object built by the callback of [useImperativeHandle] closes over
    three values of the render that built it: [values], [model.colors] and
    [initialValues]. *)

Record Handle := {
  h_values : State;
  h_colors : loc;
  h_initial : list ParamValue
}.

Definition getModel (h : Handle) : Model :=
  {| paramValues := h_values h; colors := h_colors h |}.

Definition reset (h : Handle) : Action := RESET (h_initial h).

(** The handle a render with props [p] and reducer state [vals] builds. *)
Definition buildHandle (p : Props) (vals : State) : Handle :=
  {| h_values := vals;
     h_colors := colors (model p);
     h_initial := initialValues (params p) (model p) |}.

(** ** Sessions

    A mounted component after a committed render: the props of that render,
    the two pieces of hook state, and the handle currently attached to the
    ref. *)

Record Session := {
  props : Props;
  values : State;
  errors : gmap Z string;
  handle : Handle
}.

Definition mount (p : Props) : Session :=
  let initial := initialValues (params p) (model p) in
  {| props := p; values := initial; errors := ∅;
     handle := buildHandle p initial |}.

(** What the session does on its own behalf: the two buttons, the
    [onChange] of a control, and the [reset] of the handle. *)
Inductive Op :=
  | Change (paramId : Z) (value : string) (* a control calls [onChange] *)
  | ClickValidate                         (* the "Validate & Log" button *)
  | ClickReset                            (* the "Reset" button *)
  | CallReset.                            (* [ref.current.reset()] *)

(** What can happen to a mounted component.  Every event is processed to
    the end, including the render it schedules, before the next one. *)
Inductive Event :=
  | SetProps (p : Props)                  (* the host renders with props [p] *)
  | Do (o : Op).

(** A dispatch to the reducer followed by the render it schedules.  Both
    branches of [reducer] return a new array, so the dependency [values] of
    [useImperativeHandle] has changed and the handle is built again, from
    the props of this render. *)
Definition dispatch (s : Session) (a : Action) (errs : gmap Z string) : Session :=
  let vals := reducer (values s) a in
  {| props := props s; values := vals; errors := errs;
     handle := buildHandle (props s) vals |}.

Definition perform (s : Session) (o : Op) : Session :=
  match o with
  | Change i v =>
      (* handleChange, lines 235-242 *)
      dispatch s (CHANGE i v) (delete i (errors s))
  | ClickValidate =>
      (* line 268: [validate()], then a [console.log] of [values] when it
         returns true.  Only [errors] changes: both dependencies of the
         handle are the same arrays and the handle stays *)
      {| props := props s; values := values s;
         errors := fst (validate (values s));
         handle := handle s |}
  | ClickReset =>
      (* line 275: [initialValues] of the current render *)
      dispatch s (RESET (initialValues (params (props s)) (model (props s))))
               (errors s)
  | CallReset =>
      (* line 219: [initialValues] of the render that built the handle *)
      dispatch s (reset (handle s)) (errors s)
  end.

(** A render with new props.  [values] is the same array as in the previous
    render, so the handle is built again only when [model.colors] is
    another array than the one of the previous render.  The ref the host
    attaches is taken to be one object for the life of the session (React
    adds it to the dependencies of the handle). *)
Definition rerender (s : Session) (p : Props) : Session :=
  {| props := p; values := values s; errors := errors s;
     handle := if Nat.eqb (colors (model p)) (colors (model (props s)))
               then handle s
               else buildHandle p (values s) |}.

Definition step (s : Session) (e : Event) : Session :=
  match e with
  | SetProps p => rerender s p
  | Do o => perform s o
  end.

Definition run (s : Session) (es : list Event) : Session := fold_left step es s.

(** The colours a host reads from a model, given its store. *)
Definition colorsOf (store : ColorStore) (m : Model) : list Color.t :=
  store (colors m).

(** ** The render pass of [ParamEditorInner] (lines 253-265)

    [RendererProps] is what a renderer receives.  Calling [onChange v] runs
    [handleChange(param.id, v)], that is the operation [Change (id param) v]
    of the session. *)

Module RendererProps.
Record t := {
  param : Param;
  value : string;
  onChange : string -> Op;
  error : option string
}.
End RendererProps.

(** One pair per parameter of the current props: the renderer looked up by
    [param.type] and the props it is given.  [current?.value || ""] is the
    empty string when no entry is found or when the value found is falsy. *)
Definition controls (s : Session) : list (option Renderer * RendererProps.t) :=
  map (fun param =>
         let current := find (fun v => (paramId v =? id param)%Z) (values s) in
         (useRenders (renderers (props s)) !! type param,
          {| RendererProps.param := param;
             RendererProps.value :=
               match current with
               | Some c => if falsy (value c) then "" else value c
               | None => ""
               end;
             RendererProps.onChange := fun v => Change (id param) v;
             RendererProps.error := errors s !! id param |}))
      (params (props s)).

(** What the "Validate & Log" button writes to the console (line 268):
    the current values when [validate()] returns true, nothing otherwise. *)
Definition clickValidate_log (s : Session) : option State :=
  if snd (validate (values s)) then Some (values s) else None.

(** ** Theming (lines 73-92, 224, 250-251) *)

Inductive Theme := light | dark.

(** The updater handed to [setTheme] by [toggle] (line 84). *)
Definition flipTheme (t : Theme) : Theme :=
  match t with light => dark | dark => light end.

(** What a consumer of [ThemeContext] is under: no provider, where the
    default value of [createContext] applies, or a [ThemeProvider] with its
    state. *)
Inductive ThemeScope :=
  | NoProvider
  | Provider (t : Theme).

(** A [ThemeProvider] right after mount: [useState("light")]. *)
Definition ThemeProvider : ThemeScope := Provider light.

(** [useContext(ThemeContext).theme] *)
Definition theme (c : ThemeScope) : Theme :=
  match c with NoProvider => light | Provider t => t end.

(** [useContext(ThemeContext).toggle()]; the default [toggle] is [() => {}]. *)
Definition toggle (c : ThemeScope) : ThemeScope :=
  match c with NoProvider => NoProvider | Provider t => Provider (flipTheme t) end.

(** The attribute [data-theme] and the background of the container. *)
Definition dataTheme (t : Theme) : string :=
  match t with light => "light" | dark => "dark" end.

Definition background (t : Theme) : string :=
  match t with dark => "#333" | light => "#fff" end.

(** ** Markup (lines 101-190 and 248-280)

    React elements as the JSX of the source builds them: a tag, the props
    written on it, the children.  [Nothing] is a child that is [undefined].
    An [onChange] prop holds the operation the handler runs for the text of
    the event's target; an [onClick] prop holds the operation of the
    button. *)

Inductive JsValue :=
  | JStr (s : string)
  | JNum (n : Z)
  | JBool (b : bool)
  | JUndefined
  | JStyle (decls : list (string * JsValue))
  | JOnChange (h : string -> Op)
  | JOnClick (o : Op).

Inductive Element :=
  | El (tag : string) (attrs : list (string * JsValue)) (children : list Element)
  | Text (s : string)
  | Nothing.

(** The prop [name] of an element, and its children. *)
Definition attr (name : string) (e : Element) : option JsValue :=
  match e with
  | El _ attrs _ => snd <$> find (fun a => String.eqb (fst a) name) attrs
  | _ => None
  end.

Definition kids (e : Element) : list Element :=
  match e with
  | El _ _ children => children
  | _ => []
  end.

(** Whether a character occurs in a string. *)
Fixpoint mentions (a : Ascii.ascii) (s : string) : bool :=
  match s with
  | EmptyString => false
  | String b s' => Ascii.eqb a b || mentions a s'
  end.

(** [Number.isSafeInteger]: the integers a JavaScript number holds exactly
    and prints digit for digit. *)
Definition safeInteger (z : Z) : bool := (Z.abs z <=? 9007199254740991)%Z.

(** [`param-${param.id}`] and [`${id}-error`]: a safe integer id is printed
    in decimal, with a leading minus sign when negative.  Beyond the safe
    integers a number is printed otherwise (rounded digits, an exponent from
    1e21 on), and [domId] is not the string of the source. *)
Definition domId (p : Param) : string := "param-" +:+ pretty (id p).

Definition errorId (p : Param) : string := domId p +:+ "-error".

(** Truthiness of the optional prop [error]. *)
Definition truthy (error : option string) : bool :=
  match error with
  | Some e => negb (falsy e)
  | None => false
  end.

(** [<label htmlFor={id} ...>{param.name}</label>] *)
Definition labelOf (p : Param) : Element :=
  El "label"
     [("htmlFor", JStr (domId p));
      ("style", JStyle [("display", JStr "block"); ("marginBottom", JNum 4)])]
     [Text (name p)].

(** [error ? `${id}-error` : undefined] *)
Definition describedBy (p : Param) (error : option string) : JsValue :=
  if truthy error then JStr (errorId p) else JUndefined.

(** [{error && (<div id={`${id}-error`} ...>{error}</div>)}]: the value of
    [error] itself when it is falsy. *)
Definition errorBlock (p : Param) (error : option string) : Element :=
  match error with
  | Some e =>
      if falsy e then Text e
      else El "div"
              [("id", JStr (errorId p));
               ("style", JStyle [("color", JStr "red"); ("marginTop", JNum 4)])]
              [Text e]
  | None => Nothing
  end.

Definition controlStyle : JsValue :=
  JStyle [("width", JStr "100%"); ("padding", JStr "8px");
          ("boxSizing", JStr "border-box")].

Definition wrapperStyle : JsValue := JStyle [("marginBottom", JNum 16)].

Definition optNum (o : option Z) : JsValue :=
  match o with Some n => JNum n | None => JUndefined end.

(** [StringParamEditor], lines 101-126. *)
Definition StringParamEditor_render (rp : RendererProps.t) : Element :=
  let p := RendererProps.param rp in
  let error := RendererProps.error rp in
  El "div" [("style", wrapperStyle)]
     [labelOf p;
      El "input"
         [("id", JStr (domId p));
          ("type", JStr "text");
          ("value", JStr (RendererProps.value rp));
          ("onChange", JOnChange (RendererProps.onChange rp));
          ("aria-invalid", JBool (truthy error));
          ("aria-describedby", describedBy p error);
          ("style", controlStyle)]
         [];
      errorBlock p error].

(** [NumberParamEditor], lines 128-156.  [param as NumberParam] is a cast:
    on a parameter of another kind [min] and [max] are [undefined]. *)
Definition NumberParamEditor_render (rp : RendererProps.t) : Element :=
  let p := RendererProps.param rp in
  let error := RendererProps.error rp in
  let min := match kind p with NumberParam mn _ => mn | _ => None end in
  let max := match kind p with NumberParam _ mx => mx | _ => None end in
  El "div" [("style", wrapperStyle)]
     [labelOf p;
      El "input"
         [("id", JStr (domId p));
          ("type", JStr "number");
          ("value", JStr (RendererProps.value rp));
          ("min", optNum min);
          ("max", optNum max);
          ("onChange", JOnChange (RendererProps.onChange rp));
          ("aria-invalid", JBool (truthy error));
          ("aria-describedby", describedBy p error);
          ("style", controlStyle)]
         [];
      errorBlock p error].

(** [SelectParamEditor], lines 158-190.  On a parameter that is not a
    select, [selParam.options] is [undefined] and [.map] throws: [None]. *)
Definition SelectParamEditor_render (rp : RendererProps.t) : option Element :=
  let p := RendererProps.param rp in
  let error := RendererProps.error rp in
  match kind p with
  | SelectParam options =>
      Some (El "div" [("style", wrapperStyle)]
             [labelOf p;
              El "select"
                 [("id", JStr (domId p));
                  ("value", JStr (RendererProps.value rp));
                  ("onChange", JOnChange (RendererProps.onChange rp));
                  ("aria-invalid", JBool (truthy error));
                  ("aria-describedby", describedBy p error);
                  ("style", controlStyle)]
                 (El "option" [("value", JStr "")] [Text "— select —"]
                  :: map (fun opt => El "option"
                                        [("key", JStr opt); ("value", JStr opt)]
                                        [Text opt])
                         options);
              errorBlock p error])
  | _ => None
  end.

(** What a renderer of the registry returns for the props it is given.
    The renderers of the host are functions of the host. *)
Definition renderWith (host : nat -> RendererProps.t -> option Element)
    (r : Renderer) (rp : RendererProps.t) : option Element :=
  match r with
  | StringParamEditor => Some (StringParamEditor_render rp)
  | NumberParamEditor => Some (NumberParamEditor_render rp)
  | SelectParamEditor => SelectParamEditor_render rp
  | HostRenderer k => host k rp
  end.

(** The element [ParamEditorInner] returns (lines 248-280), under a theme
    scope: [None] when a tag has no renderer or a renderer throws.  The
    array of controls and the two buttons are laid out as React does, as
    one list of children; [key] is not a prop a renderer receives. *)
Definition ParamEditor_render (host : nat -> RendererProps.t -> option Element)
    (c : ThemeScope) (s : Session) : option Element :=
  rendered ← mapM (fun rc : option Renderer * RendererProps.t =>
                     r ← fst rc; renderWith host r (snd rc))
                  (controls s);
  Some (El "div"
           [("data-theme", JStr (dataTheme (theme c)));
            ("style", JStyle [("padding", JNum 20);
                              ("background", JStr (background (theme c)))])]
           (rendered ++
            [El "button"
                [("onClick", JOnClick ClickValidate);
                 ("style", JStyle [("marginRight", JNum 8)])]
                [Text "Validate & Log"];
             El "button" [("onClick", JOnClick ClickReset)] [Text "Reset"]])).

(** ** Properties of sessions used in the statements *)

(** The host keeps supplying the props [p0] of construction. *)
Definition keeps_props (p0 : Props) (e : Event) : Prop :=
  match e with
  | SetProps p => p = p0
  | Do _ => True
  end.

(** The handle attached to the ref shows the current reducer state and the
    colour array of the current props. *)
Definition handle_current (s : Session) : Prop :=
  h_values (handle s) = values s /\ h_colors (handle s) = colors (model (props s)).

(** The props are [p0] and the handle was built under them. *)
Definition settled (p0 : Props) (s : Session) : Prop :=
  props s = p0 /\ h_initial (handle s) = initialValues (params p0) (model p0).

(** Entries of an EditState with the same id carry the same value. *)
Definition same_id_same_value (st : State) : Prop :=
  forall a b, a ∈ st -> b ∈ st -> paramId a = paramId b -> value a = value b.

(** Events that are not a Reset, by the button or by the handle. *)
Definition no_reset (e : Event) : Prop :=
  match e with
  | Do ClickReset | Do CallReset => False
  | _ => True
  end.

(** Events that are not a validation. *)
Definition no_validate (e : Event) : Prop :=
  match e with
  | Do ClickValidate => False
  | _ => True
  end.

Definition is_Do (e : Event) : bool :=
  match e with Do _ => true | SetProps _ => false end.

(** The three renderers of the source, as against those of a host. *)
Definition builtin (r : Renderer) : Prop :=
  match r with HostRenderer _ => False | _ => True end.

(** An override a host can write: its renderers are the host's own (the
    built-in ones are not exported), and they return an element. *)
Definition host_override (host : nat -> RendererProps.t -> option Element)
    (rs : option (gmap string Renderer)) : Prop :=
  match rs with
  | None => True
  | Some o =>
      forall tag r, o !! tag = Some r ->
        exists n, r = HostRenderer n /\ forall rp, is_Some (host n rp)
  end.

(** ** Concrete inputs: the scenario with one string parameter *)

Definition labelParam : Param := {| id := 1; name := "Label"; kind := StringParam |}.

Definition modelHi : Model :=
  {| paramValues := [ {| paramId := 1; value := "hi" |} ]; colors := 0 |}.

Definition propsHi : Props :=
  {| params := [labelParam]; model := modelHi; renderers := None |}.

Definition modelBye : Model :=
  {| paramValues := [ {| paramId := 1; value := "bye" |} ]; colors := 0 |}.

Definition propsBye : Props :=
  {| params := [labelParam]; model := modelBye; renderers := None |}.

Definition red : Color.t := {| Color.id := 1; Color.name := "red"; Color.hex := "#f00" |}.

(** A store in which array 1 holds one colour and every other array none. *)
Definition storeRed : ColorStore :=
  fun l => match l with 1 => [red] | _ => [] end.

Definition modelRed : Model :=
  {| paramValues := [ {| paramId := 1; value := "hi" |} ]; colors := 1 |}.

Definition propsRed : Props :=
  {| params := [labelParam]; model := modelRed; renderers := None |}.

(** ** Concrete inputs: a form with one parameter of each kind *)

Definition sizeParam : Param :=
  {| id := 2; name := "Size"; kind := NumberParam (Some 0%Z) (Some 10%Z) |}.

Definition modeParam : Param :=
  {| id := 3; name := "Mode"; kind := SelectParam ["fast"; "slow"] |}.

Definition formModel : Model :=
  {| paramValues := [ {| paramId := 1; value := "hi" |};
                      {| paramId := 2; value := "5" |};
                      {| paramId := 3; value := "fast" |} ];
     colors := 0 |}.

Definition formProps : Props :=
  {| params := [labelParam; sizeParam; modeParam]; model := formModel;
     renderers := None |}.

(** What the control of a parameter is given, for a value and an error. *)
Definition controlOf (p : Param) (v : string) (e : option string) : RendererProps.t :=
  {| RendererProps.param := p; RendererProps.value := v;
     RendererProps.onChange := fun t => Change (id p) t;
     RendererProps.error := e |}.

(** A host without renderers of its own. *)
Definition noHost : nat -> RendererProps.t -> option Element := fun _ _ => None.

(** ** The scenario, step by step *)

Example scenario_start : values (mount propsHi) = [ {| paramId := 1; value := "hi" |} ].
Proof. reflexivity. Qed.

Example scenario_change :
  paramValues (getModel (handle (perform (mount propsHi) (Change 1 ""))))
  = [ {| paramId := 1; value := "" |} ].
Proof. reflexivity. Qed.

Example scenario_validate :
  validate (values (perform (mount propsHi) (Change 1 "")))
  = ({[ 1%Z := "Required field" ]}, false).
Proof. vm_compute. reflexivity. Qed.

Example scenario_edit_clears_error :
  errors (run (mount propsHi)
              [Do (Change 1 ""); Do ClickValidate; Do (Change 1 "x")]) !! 1%Z = None.
Proof. vm_compute. reflexivity. Qed.

Example scenario_reset :
  paramValues (getModel (handle (run (mount propsHi)
     [Do (Change 1 ""); Do ClickValidate; Do (Change 1 "x"); Do CallReset])))
  = [ {| paramId := 1; value := "hi" |} ].
Proof. reflexivity. Qed.

(** ** Facts about the reducer and the seeding *)

Section ListFacts.

Lemma find_paramId_Some (vs : list ParamValue) (i : Z) (pv : ParamValue) :
  find (fun pv => (paramId pv =? i)%Z) vs = Some pv ->
  exists k, vs !! k = Some pv /\ paramId pv = i /\
    forall j pv', j < k -> vs !! j = Some pv' -> paramId pv' <> i.
Proof.
  induction vs as [|x vs IH]; simpl; [discriminate|].
  destruct (Z.eqb_spec (paramId x) i) as [Heq|Hne].
  - intros [= ->]. exists 0. split; [done|]. split; [done|]. intros j pv' Hj; lia.
  - intros Hf. destruct (IH Hf) as (k & Hk & Hid & Hfirst).
    exists (S k). split; [done|]. split; [done|].
    intros [|j] pv' Hj Hl; simpl in Hl.
    + by injection Hl as <-.
    + apply (Hfirst j); [lia|done].
Qed.

Lemma find_paramId_None (vs : list ParamValue) (i : Z) :
  find (fun pv => (paramId pv =? i)%Z) vs = None ->
  forall pv, pv ∈ vs -> paramId pv <> i.
Proof.
  intros Hf pv Hin%list_elem_of_In.
  pose proof (find_none _ _ Hf pv Hin) as Hb. simpl in Hb.
  by apply Z.eqb_neq.
Qed.

Lemma reducer_CHANGE_lookup (st : State) (i : Z) (v : string) (k : nat) :
  reducer st (CHANGE i v) !! k
  = (fun pv => if (paramId pv =? i)%Z
               then {| paramId := paramId pv; value := v |} else pv) <$> st !! k.
Proof. simpl. apply list_lookup_fmap. Qed.

Lemma reducer_CHANGE_ids (st : State) (i : Z) (v : string) :
  map paramId (reducer st (CHANGE i v)) = map paramId st.
Proof.
  simpl. rewrite map_map. apply map_ext. intros pv.
  by destruct (paramId pv =? i)%Z.
Qed.

Lemma reducer_CHANGE_absent (st : State) (i : Z) (v : string) :
  (forall pv, pv ∈ st -> paramId pv <> i) -> reducer st (CHANGE i v) = st.
Proof.
  intros Habs. simpl. induction st as [|pv st IH]; [done|]. simpl.
  destruct (Z.eqb_spec (paramId pv) i) as [Heq|_].
  - exfalso. apply (Habs pv); [left|done].
  - f_equal. apply IH. intros pv' Hin. apply Habs. by right.
Qed.

End ListFacts.

(** ** C3: the starting state *)

(** C3. For every schema [P] and initial model [M], the starting EditState
    has one entry per parameter of [P], in the order of [P] (none for the
    empty schema): the entry at position [k] carries the id of the [k]-th
    parameter, and its value is that of the first entry of [M.paramValues]
    with this id when there is one, and the empty string when there is
    none. *)
Theorem C3_starting_state (P : list Param) (M : Model)
    (rs : option (gmap string Renderer)) :
  let st := values (mount {| params := P; model := M; renderers := rs |}) in
  length st = length P /\
  map paramId st = map id P /\
  forall k param, P !! k = Some param ->
    exists v, st !! k = Some {| paramId := id param; value := v |} /\
      ((exists n pv, paramValues M !! n = Some pv /\ paramId pv = id param /\
                     value pv = v /\
                     forall j pv', j < n -> paramValues M !! j = Some pv' ->
                                   paramId pv' <> id param)
       \/ ((forall pv, pv ∈ paramValues M -> paramId pv <> id param) /\ v = "")).
Proof.
  intros st. subst st. simpl. unfold initialValues.
  split; [by rewrite length_map|].
  split; [by rewrite map_map|].
  intros k param Hk.
  match goal with |- context [map ?f P] =>
    assert (Hlk : map f P !! k = Some (f param))
      by (change (map f P) with (f <$> P); by rewrite list_lookup_fmap, Hk)
  end.
  simpl in Hlk. destruct (find _ (paramValues M)) as [f|] eqn:Hf.
  - exists (value f). split; [done|]. left.
    destruct (find_paramId_Some _ _ _ Hf) as (n & Hn & Hid & Hfirst).
    by exists n, f.
  - exists "". split; [done|]. right. split; [|done].
    by apply find_paramId_None.
Qed.

Lemma C3_starting_state_witness :
  length (values (mount propsHi)) = 1 /\
  map paramId (values (mount propsHi)) = [1%Z] /\
  exists v, values (mount propsHi) !! 0 = Some {| paramId := 1; value := v |} /\
    ((exists n pv, paramValues modelHi !! n = Some pv /\ paramId pv = 1%Z /\
                   value pv = v /\
                   forall j pv', j < n -> paramValues modelHi !! j = Some pv' ->
                                 paramId pv' <> 1%Z)
     \/ ((forall pv, pv ∈ paramValues modelHi -> paramId pv <> 1%Z) /\ v = "")).
Proof.
  destruct (C3_starting_state [labelParam] modelHi None) as (Hlen & Hids & Hk).
  split; [exact Hlen|]. split; [exact Hids|].
  apply (Hk 0 labelParam). reflexivity.
Defined.

(** ** C4, C5: the Change transition *)

(** C4. For every session and every id present in its EditState, after
    [Change(id, v)] the model returned by [getModel()] has the same number
    of entries with the same ids in the same order; every entry whose id is
    [id] now has value [v], every other entry is the one it was, and there
    is an entry for [id] with value [v]. *)
Theorem C4_change_then_getModel (s : Session) (i : Z) (v : string) :
  i ∈ map paramId (values s) ->
  let pvs := paramValues (getModel (handle (perform s (Change i v)))) in
  length pvs = length (values s) /\
  map paramId pvs = map paramId (values s) /\
  (forall k pv, values s !! k = Some pv ->
     pvs !! k = Some (if decide (paramId pv = i)
                      then {| paramId := i; value := v |} else pv)) /\
  (exists k, pvs !! k = Some {| paramId := i; value := v |}).
Proof.
  intros Hin pvs. subst pvs. cbn [perform dispatch handle buildHandle getModel
    h_values paramValues].
  assert (Hlk : forall k pv, values s !! k = Some pv ->
     reducer (values s) (CHANGE i v) !! k
     = Some (if decide (paramId pv = i)
             then {| paramId := i; value := v |} else pv)).
  { intros k pv Hk. rewrite reducer_CHANGE_lookup, Hk. simpl.
    destruct (Z.eqb_spec (paramId pv) i) as [->|Hne].
    - by rewrite decide_True.
    - by rewrite decide_False. }
  split; [simpl; by rewrite length_map|].
  split; [apply reducer_CHANGE_ids|].
  split; [exact Hlk|].
  apply list_elem_of_In, in_map_iff in Hin as (pv & Hid & Hpv).
  apply list_elem_of_In, list_elem_of_lookup in Hpv as [k Hk].
  exists k. rewrite (Hlk k pv Hk). by rewrite decide_True.
Qed.

Lemma C4_change_then_getModel_witness :
  let pvs := paramValues (getModel (handle (perform (mount propsHi) (Change 1 "x")))) in
  length pvs = 1 /\
  map paramId pvs = [1%Z] /\
  (forall k pv, values (mount propsHi) !! k = Some pv ->
     pvs !! k = Some (if decide (paramId pv = 1%Z)
                      then {| paramId := 1; value := "x" |} else pv)) /\
  (exists k, pvs !! k = Some {| paramId := 1; value := "x" |}).
Proof.
  apply (C4_change_then_getModel (mount propsHi) 1 "x").
  simpl. apply list_elem_of_here.
Defined.

(** C5. A [Change(paramId, v)] whose [paramId] matches no entry of the
    EditState is a no-op, for every [v]: the reducer returns a state equal
    to its input (it is a total function: there is no error to signal), and
    so does the session. *)
Theorem C5_change_unknown_id (s : Session) (i : Z) (v : string) :
  (forall pv, pv ∈ values s -> paramId pv <> i) ->
  reducer (values s) (CHANGE i v) = values s /\
  values (perform s (Change i v)) = values s /\
  paramValues (getModel (handle (perform s (Change i v)))) = values s.
Proof.
  intros Habs. pose proof (reducer_CHANGE_absent _ i v Habs) as Hno.
  by cbn [perform dispatch values handle buildHandle getModel h_values paramValues].
Qed.

Lemma C5_change_unknown_id_witness :
  reducer (values (mount propsHi)) (CHANGE 7 "x") = values (mount propsHi) /\
  values (perform (mount propsHi) (Change 7 "x")) = values (mount propsHi) /\
  paramValues (getModel (handle (perform (mount propsHi) (Change 7 "x"))))
  = values (mount propsHi).
Proof.
  apply (C5_change_unknown_id (mount propsHi) 7 "x").
  intros pv Hin. apply list_elem_of_In in Hin. simpl in Hin.
  destruct Hin as [<-|[]]. simpl. lia.
Defined.

(** ** C6: validation *)

Section Validation.

Lemma falsy_spec (s : string) : falsy s = true <-> s = "".
Proof. destruct s; simpl; split; congruence. Qed.

(** The loop of [validate], started from any accumulator. *)
Lemma validate_loop_lookup (st : list ParamValue) (acc : gmap Z string) (i : Z) :
  fold_left (fun errs pv =>
               if falsy (value pv) then <[paramId pv := "Required field"]> errs
               else errs) st acc !! i
  = if existsb (fun pv => (paramId pv =? i)%Z && falsy (value pv)) st
    then Some "Required field" else acc !! i.
Proof.
  revert acc. induction st as [|pv st IH]; intros acc; [done|].
  cbn [fold_left existsb]. rewrite IH.
  destruct (existsb _ st); [by rewrite orb_true_r|]. rewrite orb_false_r.
  destruct (falsy (value pv)); [|by rewrite andb_false_r].
  rewrite andb_true_r. destruct (Z.eqb_spec (paramId pv) i) as [->|Hne].
  - by rewrite lookup_insert_eq.
  - by rewrite lookup_insert_ne.
Qed.

Lemma validate_errs_lookup (st : list ParamValue) (i : Z) :
  validate_errs st !! i
  = if existsb (fun pv => (paramId pv =? i)%Z && falsy (value pv)) st
    then Some "Required field" else None.
Proof. unfold validate_errs. by rewrite validate_loop_lookup, lookup_empty. Qed.

Lemma empty_entry_spec (st : list ParamValue) (i : Z) :
  existsb (fun pv => (paramId pv =? i)%Z && falsy (value pv)) st = true
  <-> exists pv, pv ∈ st /\ paramId pv = i /\ value pv = "".
Proof.
  rewrite existsb_exists. split.
  - intros (pv & Hin & [Hid Hv]%andb_true_iff).
    exists pv. rewrite list_elem_of_In. by rewrite <- falsy_spec, <- Z.eqb_eq.
  - intros (pv & Hin & Hid & Hv). exists pv.
    rewrite <- list_elem_of_In. split; [done|].
    apply andb_true_iff. by rewrite Z.eqb_eq, falsy_spec.
Qed.

Lemma validate_ok_spec (st : list ParamValue) :
  snd (validate st) = true <-> validate_errs st = ∅.
Proof.
  unfold validate. cbn [snd]. rewrite Nat.eqb_eq.
  rewrite <- dom_empty_iff_L. unfold_leibniz. rewrite <- elements_empty_iff.
  by destruct (elements _).
Qed.

End Validation.

(** C6. For every EditState, [validate] returns false exactly when some
    entry has the empty string as its value; the keys of the error map it
    produces are exactly the ids of the entries with an empty value, each
    mapped to "Required field"; and the map stored by the "Validate"
    action is this one whatever the props (parameter kinds, min, max), the
    previous errors and the handle of the session are. *)
Theorem C6_validate_required_only (st : list ParamValue) :
  (snd (validate st) = false <-> exists pv, pv ∈ st /\ value pv = "") /\
  (forall i, i ∈ dom (fst (validate st))
             <-> exists pv, pv ∈ st /\ paramId pv = i /\ value pv = "") /\
  (forall i, i ∈ dom (fst (validate st))
             <-> fst (validate st) !! i = Some "Required field") /\
  (forall p errs h,
     errors (perform {| props := p; values := st; errors := errs; handle := h |}
                     ClickValidate)
     = fst (validate st)).
Proof.
  assert (Hdom : forall i, i ∈ dom (fst (validate st))
             <-> fst (validate st) !! i = Some "Required field").
  { intros i. rewrite elem_of_dom. cbn [validate fst].
    rewrite validate_errs_lookup. destruct (existsb _ st).
    - split; [done|]. by intros _; eexists.
    - split; [by intros [? ?]|done]. }
  split; [|split; [|split; [exact Hdom|done]]].
  - rewrite <- not_true_iff_false, validate_ok_spec. split.
    + intros Hne. apply map_choose in Hne as (i & msg & Hi).
      rewrite validate_errs_lookup in Hi.
      destruct (existsb _ st) eqn:Hex; [|done].
      apply empty_entry_spec in Hex as (pv & Hin & _ & Hv). by exists pv.
    + intros (pv & Hin & Hv) Hemp.
      assert (Hex : existsb (fun pv' => (paramId pv' =? paramId pv)%Z
                                       && falsy (value pv')) st = true)
        by (apply empty_entry_spec; by exists pv).
      pose proof (validate_errs_lookup st (paramId pv)) as Hlk.
      rewrite Hex, Hemp, lookup_empty in Hlk. done.
  - intros i. rewrite Hdom. cbn [validate fst]. rewrite validate_errs_lookup.
    rewrite <- empty_entry_spec. by destruct (existsb _ st).
Qed.

(** ** C7, C10: optimistic clearing of errors *)

(** C7. For every session (hence every ErrorMap) and every id, a
    [Change(id, v)] with a non-empty [v] leaves no entry for [id] in the
    ErrorMap, with no validation involved, and the entry of every other id
    is what it was. *)
Theorem C7_change_clears_error (s : Session) (i : Z) (v : string) :
  v <> "" ->
  errors (perform s (Change i v)) !! i = None /\
  (forall j, j <> i -> errors (perform s (Change i v)) !! j = errors s !! j) /\
  errors (perform s (Change i v)) = delete i (errors s).
Proof.
  intros _. cbn [perform dispatch errors].
  split; [apply lookup_delete_eq|]. split; [|done].
  intros j Hne. by apply lookup_delete_ne.
Qed.

Lemma C7_change_clears_error_witness :
  let s := perform (perform (mount propsHi) (Change 1 "")) ClickValidate in
  errors s !! 1%Z = Some "Required field" /\
  errors (perform s (Change 1 "x")) !! 1%Z = None /\
  (forall j, j <> 1%Z -> errors (perform s (Change 1 "x")) !! j = errors s !! j) /\
  errors (perform s (Change 1 "x")) = delete 1%Z (errors s).
Proof.
  split; [vm_compute; reflexivity|].
  apply (C7_change_clears_error
           (perform (perform (mount propsHi) (Change 1 "")) ClickValidate) 1 "x").
  discriminate.
Defined.

(** C10. The clearing does not look at the new value: when the ErrorMap
    has an entry for [id], [Change(id, "")] removes it although the field
    is now empty, and leaves every other entry as it was; the error is back
    only once validation runs again (for an [id] that has an entry in the
    EditState). *)
Theorem C10_clearing_ignores_value (s : Session) (i : Z) (msg : string) :
  errors s !! i = Some msg ->
  let s' := perform s (Change i "") in
  errors s' !! i = None /\
  (forall j, j <> i -> errors s' !! j = errors s !! j) /\
  (forall pv, pv ∈ values s -> paramId pv = i ->
     {| paramId := i; value := "" |} ∈ values s' /\
     errors (perform s' ClickValidate) !! i = Some "Required field").
Proof.
  intros _ s'. subst s'. cbn [perform dispatch errors values].
  split; [apply lookup_delete_eq|].
  split; [intros j Hne; by apply lookup_delete_ne|].
  intros pv Hin Hid.
  assert (Hnew : {| paramId := i; value := "" |} ∈ reducer (values s) (CHANGE i "")).
  { apply list_elem_of_lookup in Hin as [k Hk].
    apply list_elem_of_lookup. exists k.
    rewrite reducer_CHANGE_lookup, Hk. simpl. subst i.
    by rewrite Z.eqb_refl. }
  split; [done|]. cbn [validate fst]. rewrite validate_errs_lookup.
  assert (Hex : existsb (fun pv' => (paramId pv' =? i)%Z && falsy (value pv'))
                        (reducer (values s) (CHANGE i "")) = true)
    by (apply empty_entry_spec; by eexists).
  by rewrite Hex.
Qed.

Lemma C10_clearing_ignores_value_witness :
  let s := perform (perform (mount propsHi) (Change 1 "")) ClickValidate in
  let s' := perform s (Change 1 "") in
  errors s' !! 1%Z = None /\
  (forall j, j <> 1%Z -> errors s' !! j = errors s !! j) /\
  (forall pv, pv ∈ values s -> paramId pv = 1%Z ->
     {| paramId := 1; value := "" |} ∈ values s' /\
     errors (perform s' ClickValidate) !! 1%Z = Some "Required field").
Proof.
  apply (C10_clearing_ignores_value
           (perform (perform (mount propsHi) (Change 1 "")) ClickValidate)
           1 "Required field").
  vm_compute. reflexivity.
Defined.

(** ** C9: the renderer registry *)

Lemma defaultRenderers_lookup (tag : string) :
  defaultRenderers !! tag
  = if decide (tag = "string") then Some StringParamEditor
    else if decide (tag = "number") then Some NumberParamEditor
    else if decide (tag = "select") then Some SelectParamEditor
    else None.
Proof.
  unfold defaultRenderers. repeat case_decide; subst; by simplify_map_eq.
Qed.

(** C9. The registry in effect is the union of the built-in mapping with
    the override: a tag of the override resolves to the override's
    strategy, any other tag to what the built-in mapping has for it, and
    without an override the registry is the built-in mapping.  With an
    override for [string] only, a [string] parameter is dispatched to the
    override and [number] and [select] parameters to their built-ins. *)
Theorem C9_renderer_merge :
  (forall (override : gmap string Renderer) (tag : string),
     useRenders (Some override) !! tag
     = match override !! tag with
       | Some r => Some r
       | None => defaultRenderers !! tag
       end) /\
  (forall tag, useRenders None !! tag = defaultRenderers !! tag) /\
  dom defaultRenderers = ({[ "string"; "number"; "select" ]} : gset string) /\
  (forall (r : Renderer) (p : Param),
     dispatchRenderer (Some {[ "string" := r ]}) p
     = Some match kind p with
            | StringParam => r
            | NumberParam _ _ => NumberParamEditor
            | SelectParam _ => SelectParamEditor
            end).
Proof.
  split; [|split; [done|split]].
  - intros override tag. unfold useRenders. rewrite lookup_union.
    destruct (override !! tag) as [r|]; [|by rewrite (left_id_L None _)].
    by destruct (defaultRenderers !! tag).
  - unfold defaultRenderers. rewrite !dom_insert_L, dom_singleton_L. set_solver.
  - intros r p. unfold dispatchRenderer, useRenders, type.
    rewrite lookup_union, defaultRenderers_lookup.
    destruct (kind p); by simplify_map_eq.
Qed.

(** ** Sessions over time *)

Section Traces.

Lemma run_snoc (s : Session) (es : list Event) (e : Event) :
  run s (es ++ [e]) = step (run s es) e.
Proof. unfold run. by rewrite fold_left_app. Qed.

Lemma handle_current_step (s : Session) (e : Event) :
  handle_current s -> handle_current (step s e).
Proof.
  intros [Hv Hc]. destruct e as [p|[i v| | |]]; try done.
  unfold handle_current. cbn [step rerender handle values props].
  destruct (Nat.eqb_spec (colors (model p)) (colors (model (props s)))) as [Heq|Hne].
  - split; [done|]. by rewrite Heq.
  - done.
Qed.

Lemma handle_current_run (p0 : Props) (es : list Event) :
  handle_current (run (mount p0) es).
Proof.
  induction es as [|e es IH] using rev_ind; [done|].
  rewrite run_snoc. by apply handle_current_step.
Qed.

Lemma settled_step (p0 : Props) (s : Session) (e : Event) :
  keeps_props p0 e -> settled p0 s -> settled p0 (step s e).
Proof.
  intros He [Hp Hi]. destruct e as [p|[i v| | |]]; simpl in He.
  - subst p. unfold settled. cbn [step rerender handle props].
    split; [done|]. by destruct (Nat.eqb _ _).
  - unfold settled. cbn. by rewrite Hp.
  - done.
  - unfold settled. cbn. by rewrite Hp.
  - unfold settled. cbn. by rewrite Hp.
Qed.

Lemma settled_run (p0 : Props) (es : list Event) :
  Forall (keeps_props p0) es -> settled p0 (run (mount p0) es).
Proof.
  induction es as [|e es IH] using rev_ind; [done|].
  intros [Hes He]%Forall_app. rewrite run_snoc.
  apply settled_step; [by inversion He|by apply IH].
Qed.

Lemma keeps_props_ops (p0 : Props) (ops : list Op) :
  Forall (keeps_props p0) (map Do ops).
Proof. induction ops; constructor; done. Qed.

Lemma perform_props (s : Session) (o : Op) :
  props (perform s o) = props s.
Proof. by destruct o. Qed.

End Traces.

(** ** C1, C2: what Reset resets to *)

(** C1, as the code has it: a session that mounts with the model "hi",
    then gets the model "bye" from the host, then has its field edited,
    is put by [reset()] on the values of the later model, not on those of
    the model of construction. *)
Lemma C1_counterexample :
  let s := run (mount propsHi) [SetProps propsBye; Do (Change 1 "x")] in
  values (perform s CallReset) = [ {| paramId := 1; value := "bye" |} ] /\
  values (perform s ClickReset) = [ {| paramId := 1; value := "bye" |} ] /\
  initialValues (params propsHi) (model propsHi) = [ {| paramId := 1; value := "hi" |} ] /\
  values (perform s CallReset) <> initialValues (params propsHi) (model propsHi).
Proof. repeat (split; [reflexivity|]). discriminate. Qed.

(** C1, amended. The initial values a Reset uses are computed anew from the
    props of each render.  After any sequence of prop updates and
    operations: the "Reset" button puts the EditState on the values derived
    from the schema and model of the current props; so does [reset()] on
    the handle right after any Change; and when the host has supplied no
    props since construction, [reset()] puts it on the values derived from
    the schema and model of construction. *)
Theorem C1_reset_uses_render_values (p0 : Props) (evs : list Event) :
  let s := run (mount p0) evs in
  values (perform s ClickReset)
  = initialValues (params (props s)) (model (props s)) /\
  (forall i v, values (perform (perform s (Change i v)) CallReset)
               = initialValues (params (props s)) (model (props s))) /\
  (forall ops, values (perform (run (mount p0) (map Do ops)) CallReset)
               = initialValues (params p0) (model p0)).
Proof.
  intros s. split; [done|]. split; [done|].
  intros ops. destruct (settled_run p0 _ (keeps_props_ops p0 ops)) as [_ Hi].
  cbn [perform dispatch values reducer reset]. exact Hi.
Qed.

(** C2. For every session whose props stay those of construction, a Reset
    (by the button or by [reset()]) after any finite sequence of operations,
    Changes in particular, in any order, yields an EditState equal to the
    initial snapshot, and [getModel()] then returns it. *)
Theorem C2_reset_restores_snapshot (p0 : Props) (evs : list Event) :
  Forall (keeps_props p0) evs ->
  let s := run (mount p0) evs in
  values (perform s ClickReset) = values (mount p0) /\
  values (perform s CallReset) = values (mount p0) /\
  paramValues (getModel (handle (perform s CallReset))) = values (mount p0).
Proof.
  intros Hevs s. destruct (settled_run p0 evs Hevs) as [Hp Hi]. fold s in Hp, Hi.
  cbn [perform dispatch values reducer reset handle buildHandle getModel
       h_values paramValues mount].
  by rewrite Hp, Hi.
Qed.

Lemma C2_reset_restores_snapshot_witness :
  let s := run (mount propsHi)
               [Do (Change 1 "x"); SetProps propsHi; Do (Change 1 ""); Do ClickValidate] in
  values s = [ {| paramId := 1; value := "" |} ] /\
  values (perform s ClickReset) = values (mount propsHi) /\
  values (perform s CallReset) = values (mount propsHi) /\
  paramValues (getModel (handle (perform s CallReset))) = values (mount propsHi).
Proof.
  split; [reflexivity|].
  apply (C2_reset_restores_snapshot propsHi
           [Do (Change 1 "x"); SetProps propsHi; Do (Change 1 ""); Do ClickValidate]).
  repeat constructor.
Defined.

(** ** C8: the colours *)

(** C8, as the code has it: once the host supplies a model with another
    colour array, [getModel().colors] is that array, not the one of the
    model of construction. *)
Lemma C8_counterexample :
  let s := run (mount propsHi) [SetProps propsRed] in
  colorsOf storeRed (getModel (handle s)) = [red] /\
  colorsOf storeRed (model propsHi) = [] /\
  colorsOf storeRed (getModel (handle s)) <> colorsOf storeRed (model propsHi).
Proof. split; [reflexivity|]. split; [reflexivity|]. discriminate. Qed.

(** C8, amended. At every point of a session, [getModel().colors] is the
    colour array of the model the host supplied last (the same array, hence
    equal content in every store); no operation of the session (Change,
    validate, Reset by button or handle) changes what [getModel().colors]
    is; and as long as the host supplies no props after construction it is
    the colour array of the model of construction. *)
Theorem C8_colors_pass_through (store : ColorStore) (p0 : Props) (evs : list Event) :
  let s := run (mount p0) evs in
  colors (getModel (handle s)) = colors (model (props s)) /\
  colorsOf store (getModel (handle s)) = colorsOf store (model (props s)) /\
  (forall o, colors (getModel (handle (perform s o))) = colors (getModel (handle s))) /\
  (forall ops, colorsOf store (getModel (handle (run (mount p0) (map Do ops))))
               = colorsOf store (model p0)).
Proof.
  intros s. destruct (handle_current_run p0 evs) as [_ Hc]. fold s in Hc.
  split; [exact Hc|]. split; [unfold colorsOf; cbn [getModel colors]; by rewrite Hc|].
  split.
  - intros o. pose proof (handle_current_step s (Do o)) as Hstep.
    destruct Hstep as [_ Hc']; [by apply handle_current_run|].
    cbn [step] in Hc'. cbn [getModel colors].
    by rewrite Hc', perform_props, Hc.
  - intros ops. destruct (handle_current_run p0 (map Do ops)) as [_ Hc'].
    destruct (settled_run p0 _ (keeps_props_ops p0 ops)) as [Hp _].
    unfold colorsOf. cbn [getModel colors]. by rewrite Hc', Hp.
Qed.

(** * Further properties of the code *)

(** ** How Changes compose *)

(** X1. Of two Changes to the same id in a row only the second counts: the
    session (values, errors and handle) is the one the second Change alone
    gives. *)
Theorem change_last_wins (s : Session) (i : Z) (v w : string) :
  perform (perform s (Change i v)) (Change i w) = perform s (Change i w).
Proof.
  unfold perform, dispatch. cbn [props values errors].
  assert (Hv : reducer (reducer (values s) (CHANGE i v)) (CHANGE i w)
               = reducer (values s) (CHANGE i w)).
  { simpl. rewrite map_map. apply map_ext. intros pv.
    destruct (Z.eqb_spec (paramId pv) i) as [Heq|Hne]; simpl.
    - by rewrite Heq, Z.eqb_refl.
    - by destruct (Z.eqb_spec (paramId pv) i). }
  rewrite Hv. f_equal. apply map_eq. intros j.
  destruct (decide (j = i)) as [->|Hne].
  - by rewrite !lookup_delete_eq.
  - by rewrite !lookup_delete_ne.
Qed.

(** X2. Changes to two different ids commute: both orders end in the same
    session. *)
Theorem change_commute (s : Session) (i j : Z) (v w : string) :
  i <> j ->
  perform (perform s (Change i v)) (Change j w)
  = perform (perform s (Change j w)) (Change i v).
Proof.
  intros Hij. unfold perform, dispatch. cbn [props values errors].
  assert (Hv : reducer (reducer (values s) (CHANGE i v)) (CHANGE j w)
               = reducer (reducer (values s) (CHANGE j w)) (CHANGE i v)).
  { simpl. rewrite !map_map. apply map_ext. intros pv.
    destruct (Z.eqb_spec (paramId pv) i) as [Hi|Hi];
      destruct (Z.eqb_spec (paramId pv) j) as [Hj|Hj]; simpl.
    - congruence.
    - destruct (Z.eqb_spec (paramId pv) i); destruct (Z.eqb_spec (paramId pv) j);
        congruence.
    - destruct (Z.eqb_spec (paramId pv) i); destruct (Z.eqb_spec (paramId pv) j);
        congruence.
    - destruct (Z.eqb_spec (paramId pv) i); destruct (Z.eqb_spec (paramId pv) j);
        congruence. }
  rewrite Hv. f_equal. apply map_eq. intros k.
  rewrite !lookup_delete. repeat case_decide; congruence.
Qed.

(** ** The seeding, once more *)

Section Seeding.

Lemma initialValues_ids (P : list Param) (M : Model) :
  map paramId (initialValues P M) = map id P.
Proof. unfold initialValues. by rewrite map_map. Qed.

Lemma initialValues_same_id (P : list Param) (M : Model) :
  same_id_same_value (initialValues P M).
Proof.
  intros a b Ha Hb Hid. unfold initialValues in Ha, Hb.
  apply list_elem_of_In, in_map_iff in Ha as (p & <- & _).
  apply list_elem_of_In, in_map_iff in Hb as (q & <- & _).
  simpl in *. by rewrite Hid.
Qed.

Lemma reducer_CHANGE_same_id (st : State) (i : Z) (v : string) :
  same_id_same_value st -> same_id_same_value (reducer st (CHANGE i v)).
Proof.
  intros Hst a b Ha Hb Hid. simpl in Ha, Hb.
  apply list_elem_of_In, in_map_iff in Ha as (a0 & <- & Ha%list_elem_of_In).
  apply list_elem_of_In, in_map_iff in Hb as (b0 & <- & Hb%list_elem_of_In).
  destruct (Z.eqb_spec (paramId a0) i) as [Hai|Hai];
    destruct (Z.eqb_spec (paramId b0) i) as [Hbi|Hbi]; simpl in *;
    try congruence.
  by apply Hst.
Qed.

(** The value [find] reads for an id, in a state that has the id. *)
Lemma find_same_id (st : State) (pv : ParamValue) :
  same_id_same_value st -> pv ∈ st ->
  exists c, find (fun v => (paramId v =? paramId pv)%Z) st = Some c
            /\ value c = value pv.
Proof.
  intros Hst Hin.
  destruct (find _ st) as [c|] eqn:Hf.
  - exists c. split; [done|].
    destruct (find_paramId_Some _ _ _ Hf) as (k & Hk & Hid & _).
    apply Hst; [|done|done]. apply list_elem_of_lookup. by exists k.
  - exfalso. by apply (find_paramId_None _ _ Hf pv Hin).
Qed.

End Seeding.

(** X3. A model that has one entry per parameter, in the order of the
    schema, over a schema without repeated ids, comes back unchanged from
    [getModel()] right after mount. *)
Theorem mount_getModel_round_trip (P : list Param) (M : Model)
    (rs : option (gmap string Renderer)) :
  NoDup (map id P) ->
  map paramId (paramValues M) = map id P ->
  getModel (handle (mount {| params := P; model := M; renderers := rs |})) = M.
Proof.
  intros Hnd Hids. unfold mount, getModel, buildHandle. cbn [handle h_values h_colors
    params model].
  destruct M as [pvs c]. cbn [paramValues colors] in *. f_equal.
  apply list_eq. intros k. unfold initialValues. cbn [paramValues].
  change (map ?f P) with (f <$> P). rewrite list_lookup_fmap.
  destruct (P !! k) as [param|] eqn:Hk; simpl.
  - assert (Hidk : map id P !! k = Some (id param)).
    { change (map id P) with (id <$> P). by rewrite list_lookup_fmap, Hk. }
    rewrite <- Hids in Hidk. change (map paramId pvs) with (paramId <$> pvs) in Hidk.
    rewrite list_lookup_fmap in Hidk.
    destruct (pvs !! k) as [pv|] eqn:Hpv; [|done]. simpl in Hidk.
    injection Hidk as Hidk.
    destruct (find _ pvs) as [f|] eqn:Hf.
    + destruct (find_paramId_Some _ _ _ Hf) as (n & Hn & Hid & _).
      assert (n = k) as ->.
      { rewrite <- Hids in Hnd. apply (NoDup_lookup _ n k (id param) Hnd).
        - change (map paramId pvs) with (paramId <$> pvs).
          by rewrite list_lookup_fmap, Hn; simpl; rewrite Hid.
        - change (map paramId pvs) with (paramId <$> pvs).
          by rewrite list_lookup_fmap, Hpv; simpl; rewrite Hidk. }
      rewrite Hpv in Hn. injection Hn as ->. f_equal.
      rewrite <- Hid. by destruct f.
    + exfalso. apply (find_paramId_None _ _ Hf pv); [|done].
      apply list_elem_of_lookup. by exists k.
  - assert (Hlen : length pvs = length P).
    { by rewrite <- (length_map paramId pvs), Hids, length_map. }
    symmetry. apply lookup_ge_None. rewrite Hlen. by apply lookup_ge_None.
Qed.

(** ** Invariants of sessions *)

Section Invariants.

Lemma same_id_step (s : Session) (e : Event) :
  same_id_same_value (values s) /\ same_id_same_value (h_initial (handle s)) ->
  same_id_same_value (values (step s e))
  /\ same_id_same_value (h_initial (handle (step s e))).
Proof.
  intros [Hv Hh]. destruct e as [p|[i v| | |]]; cbn.
  - split; [done|]. destruct (Nat.eqb _ _); [done|]. apply initialValues_same_id.
  - split; [by apply (reducer_CHANGE_same_id _ i v)|apply initialValues_same_id].
  - done.
  - split; apply initialValues_same_id.
  - split; [done|apply initialValues_same_id].
Qed.

Lemma same_id_run (p0 : Props) (es : list Event) :
  same_id_same_value (values (run (mount p0) es))
  /\ same_id_same_value (h_initial (handle (run (mount p0) es))).
Proof.
  induction es as [|e es IH] using rev_ind.
  - split; apply initialValues_same_id.
  - rewrite run_snoc. by apply same_id_step.
Qed.

Lemma ids_run (p0 : Props) (es : list Event) :
  Forall (keeps_props p0) es ->
  map paramId (values (run (mount p0) es)) = map id (params p0).
Proof.
  induction es as [|e es IH] using rev_ind; intros Hes.
  - apply initialValues_ids.
  - apply Forall_app in Hes as [Hes He]. rewrite run_snoc.
    destruct (settled_run p0 es Hes) as [Hp Hi]. specialize (IH Hes).
    destruct e as [p|[i v| | |]]; cbn [step rerender perform values]; try done.
    + unfold dispatch. cbn [values]. by rewrite reducer_CHANGE_ids.
    + unfold dispatch. cbn [values reducer]. rewrite Hp. apply initialValues_ids.
    + unfold dispatch, reset. cbn [values reducer]. rewrite Hi.
      apply initialValues_ids.
Qed.

End Invariants.

(** X4. While the host keeps the props of construction, the EditState has
    at every point exactly the ids of the schema, in the order of the
    schema: no event adds, drops or reorders an entry. *)
Theorem ids_follow_schema (p0 : Props) (evs : list Event) :
  Forall (keeps_props p0) evs ->
  map paramId (values (run (mount p0) evs)) = map id (params p0) /\
  length (paramValues (getModel (handle (run (mount p0) evs)))) = length (params p0).
Proof.
  intros Hevs. pose proof (ids_run p0 evs Hevs) as Hids. split; [done|].
  destruct (handle_current_run p0 evs) as [Hv _]. cbn [getModel paramValues].
  by rewrite Hv, <- (length_map paramId), Hids, length_map.
Qed.

(** X5. At every point of every session, two entries of the EditState with
    the same id carry the same value, whatever the props and the events
    were; so do two entries of what [getModel()] returns. *)
Theorem duplicates_stay_equal (p0 : Props) (evs : list Event) :
  same_id_same_value (values (run (mount p0) evs)) /\
  same_id_same_value (paramValues (getModel (handle (run (mount p0) evs)))).
Proof.
  destruct (same_id_run p0 evs) as [Hv _]. split; [done|].
  destruct (handle_current_run p0 evs) as [Hh _]. cbn [getModel paramValues].
  by rewrite Hh.
Qed.

(** X6. The handle is never stale: after any events, prop updates
    included, [getModel().paramValues] is the current EditState. *)
Theorem getModel_is_current (p0 : Props) (evs : list Event) :
  paramValues (getModel (handle (run (mount p0) evs))) = values (run (mount p0) evs).
Proof. by destruct (handle_current_run p0 evs) as [Hv _]. Qed.

(** ** The error map over time *)

Section Errors.

Lemma validate_errs_message (st : State) (i : Z) (msg : string) :
  validate_errs st !! i = Some msg -> msg = "Required field".
Proof.
  rewrite validate_errs_lookup. destruct (existsb _ st); congruence.
Qed.

Lemma validate_errs_key (st : State) (i : Z) :
  is_Some (validate_errs st !! i) -> i ∈ map paramId st.
Proof.
  rewrite validate_errs_lookup. destruct (existsb _ st) eqn:Hex.
  - intros _. apply empty_entry_spec in Hex as (pv & Hin & <- & _).
    apply list_elem_of_In, in_map, list_elem_of_In, Hin.
  - by intros [? ?].
Qed.

Lemma errors_step_message (s : Session) (e : Event) :
  (forall i msg, errors s !! i = Some msg -> msg = "Required field") ->
  forall i msg, errors (step s e) !! i = Some msg -> msg = "Required field".
Proof.
  intros Hs i msg. destruct e as [p|[j v| | |]]; cbn; try apply Hs.
  - intros [_ Hl]%lookup_delete_Some. by apply (Hs i).
  - apply validate_errs_message.
Qed.

End Errors.

(** X7. The only message an error map of a session ever holds is
    "Required field": this is so after any events, prop updates
    included. *)
Theorem errors_only_required (p0 : Props) (evs : list Event) (i : Z) (msg : string) :
  errors (run (mount p0) evs) !! i = Some msg -> msg = "Required field".
Proof.
  revert i msg. induction evs as [|e evs IH] using rev_ind.
  - intros i msg. cbn. by rewrite lookup_empty.
  - rewrite run_snoc. by apply errors_step_message.
Qed.

(** X8. While the host keeps the props of construction, every key of the
    error map is the id of a parameter of the schema. *)
Theorem errors_keys_in_schema (p0 : Props) (evs : list Event) (i : Z) :
  Forall (keeps_props p0) evs ->
  is_Some (errors (run (mount p0) evs) !! i) ->
  i ∈ map id (params p0).
Proof.
  revert i. induction evs as [|e evs IH] using rev_ind; intros i Hevs.
  - cbn. rewrite lookup_empty. by intros [? ?].
  - apply Forall_app in Hevs as [Hevs He]. rewrite run_snoc.
    pose proof (ids_run p0 evs Hevs) as Hids.
    destruct e as [p|[j v| | |]]; cbn; try by apply IH.
    + intros [msg [_ Hl]%lookup_delete_Some]. apply IH; [done|by eexists].
    + intros Hsome%validate_errs_key. by rewrite <- Hids.
Qed.

(** X9. No error is shown before the first validation: after events none
    of which is a click on "Validate & Log", the error map is empty. *)
Theorem no_error_before_validation (p0 : Props) (evs : list Event) :
  Forall no_validate evs -> errors (run (mount p0) evs) = ∅.
Proof.
  induction evs as [|e evs IH] using rev_ind; intros Hevs; [done|].
  apply Forall_app in Hevs as [Hevs He]. rewrite run_snoc.
  specialize (IH Hevs). inversion He as [|? ? Hnv _]; subst.
  destruct e as [p|[j v| | |]]; cbn; try done.
  rewrite IH. apply delete_empty.
Qed.

(** X10. A field edited to a non-empty value passes the next validation:
    after [Change(id, v)] with [v] not empty, validating leaves no error
    for [id], whatever the session was. *)
Theorem nonempty_edit_passes (s : Session) (i : Z) (v : string) :
  v <> "" ->
  errors (perform (perform s (Change i v)) ClickValidate) !! i = None.
Proof.
  intros Hv. unfold perform, dispatch, validate. cbn [errors values fst].
  rewrite validate_errs_lookup.
  destruct (existsb _ _) eqn:Hex; [|done]. exfalso.
  apply empty_entry_spec in Hex as (pv & Hin & Hid & Hemp).
  apply list_elem_of_In, in_map_iff in Hin as (pv0 & <- & _).
  destruct (Z.eqb_spec (paramId pv0) i) as [Heq|Hne]; simpl in *; congruence.
Qed.

(** ** Prop updates and edits *)

Section PropUpdates.

Lemma run_cons (s : Session) (e : Event) (es : list Event) :
  run s (e :: es) = run (step s e) es.
Proof. done. Qed.

(** Two sessions with the same values and errors stay so under the same
    events without Reset, when one of them skips the prop updates. *)
Lemma edits_ignore_props (es : list Event) (s1 s2 : Session) :
  Forall no_reset es ->
  values s1 = values s2 -> errors s1 = errors s2 ->
  values (run s1 es) = values (run s2 (List.filter is_Do es))
  /\ errors (run s1 es) = errors (run s2 (List.filter is_Do es)).
Proof.
  revert s1 s2. induction es as [|e es IH]; intros s1 s2 Hes Hv He; [done|].
  inversion Hes as [|? ? Hnr Hes']; subst.
  destruct e as [p|[j v| | |]]; cbn [List.filter is_Do]; rewrite ?run_cons;
    try done; apply IH; try done; cbn; congruence.
Qed.

End PropUpdates.

(** X11. Prop updates never disturb an edit in progress: as long as no
    Reset happens, the EditState and the error map after a sequence of
    events are those the same sequence gives with every prop update left
    out. *)
Theorem props_never_reseed (p0 : Props) (evs : list Event) :
  Forall no_reset evs ->
  values (run (mount p0) evs) = values (run (mount p0) (List.filter is_Do evs)) /\
  errors (run (mount p0) evs) = errors (run (mount p0) (List.filter is_Do evs)).
Proof. intros Hevs. by apply edits_ignore_props. Qed.

(** ** The console log of the "Validate & Log" button *)

(** X12. After any events, a click on "Validate & Log" logs something
    exactly when no entry of the EditState is empty; what it logs is what
    [getModel()] returns at that point, and the error map is then empty.
    When it logs nothing, some entry is empty and its id gets the error
    "Required field". *)
Theorem validate_log_spec (p0 : Props) (evs : list Event) :
  let s := run (mount p0) evs in
  match clickValidate_log s with
  | Some logged =>
      logged = paramValues (getModel (handle s)) /\
      (forall pv, pv ∈ logged -> value pv <> "") /\
      errors (perform s ClickValidate) = ∅
  | None =>
      exists pv, pv ∈ values s /\ value pv = "" /\
        errors (perform s ClickValidate) !! paramId pv = Some "Required field"
  end.
Proof.
  intros s. unfold clickValidate_log.
  destruct (snd (validate (values s))) eqn:Hok.
  - pose proof (proj1 (validate_ok_spec _) Hok) as Hemp.
    split; [destruct (handle_current_run p0 evs) as [Hcur _]; by fold s in Hcur|].
    split; [|exact Hemp].
    intros pv Hin Hv.
    pose proof (validate_errs_lookup (values s) (paramId pv)) as Hlk.
    assert (Hex : existsb (fun pv' => (paramId pv' =? paramId pv)%Z
                                     && falsy (value pv')) (values s) = true)
      by (apply empty_entry_spec; by exists pv).
    rewrite Hex, Hemp, lookup_empty in Hlk. done.
  - assert (Hne : validate_errs (values s) <> ∅).
    { intros Hemp%validate_ok_spec. congruence. }
    apply map_choose in Hne as (i & msg & Hi).
    pose proof Hi as Hi'. rewrite validate_errs_lookup in Hi'.
    destruct (existsb _ (values s)) eqn:Hex; [|done].
    apply empty_entry_spec in Hex as (pv & Hin & <- & Hv).
    exists pv. split; [done|]. split; [done|]. cbn.
    rewrite Hi. f_equal. by apply (validate_errs_message _ _ _ Hi).
Qed.

(** ** The registry, whatever the override *)

(** X13. Dispatch never comes up empty: for every override, given or not,
    and every parameter, [useRenders[param.type]] is a renderer; the tags of
    the registry in effect are those of the override together with
    [string], [number] and [select]. *)
Theorem dispatch_total (rs : option (gmap string Renderer)) (p : Param) :
  is_Some (dispatchRenderer rs p) /\
  dom (useRenders rs)
  = match rs with Some o => dom o | None => ∅ end
    ∪ ({[ "string"; "number"; "select" ]} : gset string).
Proof.
  assert (Hdom : dom defaultRenderers = ({[ "string"; "number"; "select" ]} : gset string)).
  { unfold defaultRenderers. rewrite !dom_insert_L, dom_singleton_L. set_solver. }
  assert (Hdef : is_Some (defaultRenderers !! type p)).
  { rewrite defaultRenderers_lookup. unfold type.
    destruct (kind p); repeat case_decide; try done; by eexists. }
  split.
  - unfold dispatchRenderer, useRenders. destruct rs as [o|]; [|done].
    rewrite lookup_union. destruct Hdef as [r2 ->].
    destruct (o !! type p) as [r1|]; by eexists.
  - unfold useRenders. destruct rs as [o|].
    + by rewrite dom_union_L, Hdom.
    + rewrite Hdom. set_solver.
Qed.

(** ** Theming *)

(** X14. Under a [ThemeProvider] the theme after [n] toggles is dark
    exactly when [n] is odd, and the container is painted accordingly; with
    no provider the default context applies: the theme is light and
    toggling changes nothing. *)
Theorem theme_after_toggles (n : nat) :
  theme (Nat.iter n toggle ThemeProvider) = (if Nat.even n then light else dark) /\
  background (theme (Nat.iter n toggle ThemeProvider))
  = (if Nat.even n then "#fff" else "#333") /\
  dataTheme (theme (Nat.iter n toggle ThemeProvider))
  = (if Nat.even n then "light" else "dark") /\
  Nat.iter n toggle NoProvider = NoProvider /\
  background (theme (Nat.iter n toggle NoProvider)) = "#fff".
Proof.
  assert (Hn : Nat.iter n toggle NoProvider = NoProvider).
  { induction n as [|n IH]; [done|]. by rewrite Nat.iter_succ, IH. }
  assert (Hp : Nat.iter n toggle ThemeProvider
               = Provider (if Nat.even n then light else dark)).
  { clear Hn. induction n as [|n IH]; [done|].
    rewrite Nat.iter_succ, IH, Nat.even_succ, <- Nat.negb_even.
    by destruct (Nat.even n). }
  rewrite Hp, Hn. cbn [theme]. by destruct (Nat.even n).
Qed.

(** ** What the controls are given *)

Section View.

Lemma falsy_or_empty (v : string) : (if falsy v then "" else v) = v.
Proof. by destruct v. Qed.

Lemma controls_lookup (s : Session) (k : nat) (r : option Renderer)
    (c : RendererProps.t) :
  controls s !! k = Some (r, c) <->
  exists param, params (props s) !! k = Some param /\
    r = useRenders (renderers (props s)) !! type param /\
    c = {| RendererProps.param := param;
           RendererProps.value :=
             match find (fun v => (paramId v =? id param)%Z) (values s) with
             | Some c => if falsy (value c) then "" else value c
             | None => ""
             end;
           RendererProps.onChange := fun v => Change (id param) v;
           RendererProps.error := errors s !! id param |}.
Proof.
  unfold controls. change (map ?f ?l) with (f <$> l). rewrite list_lookup_fmap.
  destruct (params (props s) !! k) as [param|]; simpl.
  - split.
    + intros [= <- <-]. by exists param.
    + by intros (? & [= <-] & -> & ->).
  - split; [done|]. by intros (? & ? & _).
Qed.

Lemma find_after_change (st : State) (i : Z) (v : string) :
  find (fun x => (paramId x =? i)%Z) (reducer st (CHANGE i v))
  = if decide (i ∈ map paramId st) then Some {| paramId := i; value := v |}
    else None.
Proof.
  induction st as [|pv st IH]; [done|]. cbn [reducer map find] in *.
  destruct (Z.eqb_spec (paramId pv) i) as [Heq|Hne]; cbn [paramId].
  - rewrite Heq, Z.eqb_refl. rewrite decide_True; [done|]. by left.
  - destruct (Z.eqb_spec (paramId pv) i) as [|_]; [done|]. rewrite IH.
    destruct (decide (i ∈ map paramId st)) as [Hin|Hnin].
    + rewrite decide_True; [done|]. by right.
    + rewrite decide_False; [done|]. intros [?|?]%elem_of_cons; congruence.
Qed.


End View.

(** X15. Typing into a control: when control [k] calls its [onChange]
    with [v], the next render gives control [k] the same renderer and
    parameter, no error, and the value [v] if the EditState has an entry
    for the parameter's id; if it has none (a parameter the host added
    after mount), the control stays on the empty string. *)
Theorem typing_shows (s : Session) (k : nat) (r : option Renderer)
    (c : RendererProps.t) (v : string) :
  controls s !! k = Some (r, c) ->
  exists c', controls (perform s (RendererProps.onChange c v)) !! k = Some (r, c') /\
    RendererProps.param c' = RendererProps.param c /\
    RendererProps.value c'
    = (if decide (id (RendererProps.param c) ∈ map paramId (values s))
       then v else "") /\
    RendererProps.error c' = None.
Proof.
  intros (param & Hk & -> & ->)%controls_lookup. cbn [RendererProps.onChange
    RendererProps.param].
  eexists. split.
  - apply controls_lookup. exists param. by split.
  - cbn [RendererProps.param RendererProps.value RendererProps.error perform
         dispatch values errors].
    split; [done|]. split; [|apply lookup_delete_eq].
    unfold dispatch. cbn [values]. rewrite find_after_change.
    case_decide; [|done]. cbn [value]. apply falsy_or_empty.
Qed.


(** X17. While the host keeps the props of construction, the [k]-th
    control shows the [k]-th entry of the EditState: same id, same value,
    and the error the map has for that id. *)
Theorem control_shows_entry (p0 : Props) (evs : list Event) (k : nat)
    (r : option Renderer) (c : RendererProps.t) :
  Forall (keeps_props p0) evs ->
  controls (run (mount p0) evs) !! k = Some (r, c) ->
  exists pv, values (run (mount p0) evs) !! k = Some pv /\
    paramId pv = id (RendererProps.param c) /\
    RendererProps.value c = value pv /\
    RendererProps.error c = errors (run (mount p0) evs) !! paramId pv.
Proof.
  intros Hevs (param & Hk & -> & ->)%controls_lookup.
  destruct (settled_run p0 evs Hevs) as [Hp _]. rewrite Hp in Hk.
  pose proof (ids_run p0 evs Hevs) as Hids.
  assert (Hidk : map paramId (values (run (mount p0) evs)) !! k = Some (id param)).
  { rewrite Hids. change (map id ?l) with (id <$> l).
    by rewrite list_lookup_fmap, Hk. }
  change (map paramId ?l) with (paramId <$> l) in Hidk.
  rewrite list_lookup_fmap in Hidk.
  destruct (values (run (mount p0) evs) !! k) as [pv|] eqn:Hpv; [|done].
  injection Hidk as Hidk. exists pv. split; [done|].
  cbn [RendererProps.param RendererProps.value RendererProps.error].
  split; [done|]. rewrite <- Hidk. split; [|done].
  destruct (same_id_run p0 evs) as [Hsame _].
  destruct (find_same_id _ pv Hsame) as (c0 & -> & <-).
  { apply list_elem_of_lookup. by exists k. }
  apply falsy_or_empty.
Qed.

(** X18. While the host keeps the props of construction, right after a
    click on "Validate & Log" a control is given the error "Required
    field" exactly when the value it is given is the empty string. *)
Theorem validation_marks_empty_fields (p0 : Props) (evs : list Event) (k : nat)
    (r : option Renderer) (c : RendererProps.t) :
  Forall (keeps_props p0) evs ->
  controls (perform (run (mount p0) evs) ClickValidate) !! k = Some (r, c) ->
  RendererProps.error c
  = if falsy (RendererProps.value c) then Some "Required field" else None.
Proof.
  intros Hevs (param & Hk & -> & ->)%controls_lookup.
  cbn [perform props values errors] in *.
  cbn [RendererProps.value RendererProps.error validate fst].
  destruct (settled_run p0 evs Hevs) as [Hp _]. rewrite Hp in Hk.
  pose proof (ids_run p0 evs Hevs) as Hids.
  destruct (same_id_run p0 evs) as [Hsame _].
  set (st := values (run (mount p0) evs)) in *.
  assert (Hin : id param ∈ map paramId st).
  { rewrite Hids. apply list_elem_of_In, in_map, list_elem_of_In.
    apply list_elem_of_lookup. by exists k. }
  apply list_elem_of_In, in_map_iff in Hin as (pv & Hid & Hpv%list_elem_of_In).
  destruct (find_same_id st pv Hsame Hpv) as (c0 & Hf & Hv).
  rewrite Hid in Hf. rewrite Hf, falsy_or_empty, validate_errs_lookup.
  destruct (existsb _ st) eqn:Hex.
  - apply empty_entry_spec in Hex as (pv' & Hin' & Hid' & Hemp).
    assert (value c0 = "") as ->; [|done].
    rewrite Hv, <- Hemp. apply Hsame; [done|done|congruence].
  - destruct (falsy (value c0)) eqn:Hfal; [|done]. exfalso.
    apply falsy_spec in Hfal.
    assert (Hex' : existsb (fun pv' => (paramId pv' =? id param)%Z
                                      && falsy (value pv')) st = true);
      [|congruence].
    apply empty_entry_spec. exists pv. by rewrite <- Hv.
Qed.

(** X19. Reset does not touch the error map: after a click on "Reset" a
    control keeps the error it had, while its value is the one seeded from
    the current props (the first entry of the model for its id, else the
    empty string); an error can so stand next to a value that is not
    empty, until the field is edited or validation runs again. *)
Theorem reset_keeps_errors (s : Session) (k : nat) (r : option Renderer)
    (c : RendererProps.t) :
  controls s !! k = Some (r, c) ->
  exists c', controls (perform s ClickReset) !! k = Some (r, c') /\
    RendererProps.param c' = RendererProps.param c /\
    RendererProps.error c' = RendererProps.error c /\
    RendererProps.value c'
    = match find (fun pv => (paramId pv =? id (RendererProps.param c))%Z)
                 (paramValues (model (props s))) with
      | Some f => value f
      | None => ""
      end.
Proof.
  intros (param & Hk & -> & ->)%controls_lookup.
  eexists. split; [apply controls_lookup; exists param; by split|].
  cbn [RendererProps.param RendererProps.value RendererProps.error].
  split; [done|]. split; [done|].
  unfold perform, dispatch. cbn [values reducer].
  set (seed := {| paramId := id param;
                  value := match find (fun pv => (paramId pv =? id param)%Z)
                                      (paramValues (model (props s))) with
                           | Some f => value f | None => "" end |}).
  assert (Hin : seed ∈ initialValues (params (props s)) (model (props s))).
  { unfold initialValues. apply list_elem_of_In, in_map_iff. exists param.
    split; [done|]. apply list_elem_of_In, list_elem_of_lookup. by exists k. }
  destruct (find_same_id _ seed (initialValues_same_id _ _) Hin) as (c0 & Hf & Hv).
  cbn [paramId seed] in Hf. rewrite Hf, falsy_or_empty. by rewrite Hv.
Qed.

(** ** Empty inputs *)

(** X21. Over an empty schema the EditState is empty whatever the model
    holds, and validation succeeds and logs the empty list.  Over a model
    without entries every field starts as the empty string, and a first
    validation puts an error on exactly the ids of the schema; it succeeds
    only if the schema is empty. *)
Theorem empty_inputs (P : list Param) (M : Model) (c : loc)
    (rs : option (gmap string Renderer)) :
  let s0 := mount {| params := []; model := M; renderers := rs |} in
  let s1 := mount {| params := P;
                     model := {| paramValues := []; colors := c |};
                     renderers := rs |} in
  values s0 = [] /\ clickValidate_log s0 = Some [] /\
  values s1 = map (fun param => {| paramId := id param; value := "" |}) P /\
  dom (errors (perform s1 ClickValidate)) = list_to_set (map id P) /\
  (snd (validate (values s1)) = true <-> P = []).
Proof.
  intros s0 s1. split; [done|]. split; [done|].
  assert (Hv : values s1 = map (fun param => {| paramId := id param; value := "" |}) P)
    by done.
  assert (Hkeys : forall i, is_Some (validate_errs (values s1) !! i) <-> i ∈ map id P).
  { intros i. rewrite validate_errs_lookup, Hv. split.
    - destruct (existsb _ _) eqn:Hex; [|by intros [? ?]]. intros _.
      apply empty_entry_spec in Hex as (pv & Hin & <- & _).
      apply list_elem_of_In, in_map_iff in Hin as (param & <- & Hin). cbn.
      by apply list_elem_of_In, in_map.
    - intros Hin. apply list_elem_of_In, in_map_iff in Hin as (param & <- & Hin).
      assert (Hex : existsb (fun pv => (paramId pv =? id param)%Z && falsy (value pv))
                (map (fun param => {| paramId := id param; value := "" |}) P) = true);
        [|by rewrite Hex].
      apply empty_entry_spec. exists {| paramId := id param; value := "" |}.
      split; [|done]. apply list_elem_of_In, in_map_iff. by exists param. }
  split; [done|]. split.
  - apply set_eq. intros i. rewrite elem_of_dom, elem_of_list_to_set. apply Hkeys.
  - rewrite validate_ok_spec. split.
    + intros Hemp. destruct P as [|param P]; [done|]. exfalso.
      assert (Hs : is_Some (validate_errs (values s1) !! id param))
        by (apply Hkeys; left).
      rewrite Hemp, lookup_empty in Hs. by destruct Hs.
    + by intros ->.
Qed.

(** ** The markup of the built-in renderers *)

Section Strings.

Lemma length_append (s t : string) :
  String.length (s +:+ t) = String.length s + String.length t.
Proof. induction s as [|a s IH]; simpl; [done|]. by rewrite IH. Qed.

Lemma append_cancel_r (s1 s2 t : string) : s1 +:+ t = s2 +:+ t -> s1 = s2.
Proof.
  revert s2. induction s1 as [|a s1 IH]; intros [|b s2] Heq; simpl in Heq.
  - done.
  - apply (f_equal String.length) in Heq.
    rewrite !length_append in Heq. simpl in Heq. lia.
  - apply (f_equal String.length) in Heq.
    rewrite !length_append in Heq. simpl in Heq. lia.
  - injection Heq as -> Heq. f_equal. by apply IH.
Qed.

Lemma mentions_append (a : Ascii.ascii) (s t : string) :
  mentions a (s +:+ t) = mentions a s || mentions a t.
Proof.
  induction s as [|b s IH]; simpl; [done|]. by rewrite IH, orb_assoc.
Qed.

(** A printed number holds no letter [e]. *)
Lemma mentions_pretty_N_go (x : N) (s : string) :
  mentions "e"%char s = false -> mentions "e"%char (pretty_N_go x s) = false.
Proof.
  revert s. induction (N.lt_wf_0 x) as [x _ IH]; intros s Hs.
  assert (x = 0 \/ 0 < x)%N as [->|Hpos] by lia.
  - by rewrite pretty_N_go_0.
  - rewrite pretty_N_go_step by done. apply IH.
    + by apply N.div_lt.
    + simpl. rewrite Hs, orb_false_r. unfold pretty_N_char.
      by repeat case_match.
Qed.

Lemma mentions_pretty_Z (z : Z) : mentions "e"%char (pretty z) = false.
Proof.
  assert (HN : forall n : N, mentions "e"%char (pretty n) = false).
  { intros n. unfold pretty, pretty_N. case_decide; [done|].
    by apply mentions_pretty_N_go. }
  unfold pretty, pretty_Z. destruct z as [|p|p]; [done|apply HN|].
  rewrite mentions_append. simpl. apply HN.
Qed.

End Strings.

(** X22. For parameters whose ids are safe integers, the ids the built-in
    renderers put in the document never clash: the controls of two
    parameters have the same id only if the parameters have the same id,
    likewise for their error blocks, and the id of an error block is never
    the id of a control. *)
Theorem dom_ids_distinct (p q : Param) :
  safeInteger (id p) = true ->
  safeInteger (id q) = true ->
  (domId p = domId q <-> id p = id q) /\
  (errorId p = errorId q <-> id p = id q) /\
  errorId p <> domId q.
Proof.
  intros _ _.
  assert (Hinj : domId p = domId q <-> id p = id q).
  { unfold domId. split; [|by intros ->].
    intros Heq%(inj (String.app "param-")). by apply (inj pretty). }
  split; [exact Hinj|]. split.
  - rewrite <- Hinj. unfold errorId. split; [apply append_cancel_r|by intros ->].
  - unfold errorId, domId. intros Heq.
    apply (f_equal (mentions "e"%char)) in Heq.
    rewrite !mentions_append, !mentions_pretty_Z in Heq. done.
Qed.

(** X23. The three built-in renderers keep one contract.  Their element
    has three children: a label for the control, showing the name of the
    parameter; the control, which carries the id of the parameter's
    control, the value it was given and [aria-invalid]; and the error
    block.  [aria-invalid] is true exactly when the error given is a
    non-empty string; [aria-describedby] is then the id of the error
    block, which shows the error; otherwise [aria-describedby] is
    undefined and no error block is rendered. *)
Theorem builtins_accessibility (host : nat -> RendererProps.t -> option Element)
    (b : Renderer) (rp : RendererProps.t) (root : Element) :
  builtin b ->
  renderWith host b rp = Some root ->
  let p := RendererProps.param rp in
  let error := RendererProps.error rp in
  exists label control block,
    kids root = [label; control; block] /\
    attr "htmlFor" label = Some (JStr (domId p)) /\
    kids label = [Text (name p)] /\
    attr "id" control = Some (JStr (domId p)) /\
    attr "value" control = Some (JStr (RendererProps.value rp)) /\
    attr "onChange" control = Some (JOnChange (RendererProps.onChange rp)) /\
    attr "aria-invalid" control = Some (JBool (truthy error)) /\
    if truthy error
    then attr "aria-describedby" control = Some (JStr (errorId p)) /\
         attr "id" block = Some (JStr (errorId p)) /\
         exists e, error = Some e /\ e <> "" /\ kids block = [Text e]
    else attr "aria-describedby" control = Some JUndefined /\
         attr "id" block = None /\ kids block = [].
Proof.
  intros Hb Hr p error.
  assert (Hblock :
    if truthy error
    then describedBy p error = JStr (errorId p) /\
         attr "id" (errorBlock p error) = Some (JStr (errorId p)) /\
         exists e, error = Some e /\ e <> "" /\ kids (errorBlock p error) = [Text e]
    else describedBy p error = JUndefined /\
         attr "id" (errorBlock p error) = None /\ kids (errorBlock p error) = []).
  { unfold describedBy, errorBlock. destruct error as [[|a e]|]; simpl; try done.
    split; [done|]. split; [done|]. by eexists. }
  destruct b; [| | |done]; cbn [renderWith] in Hr.
  - injection Hr as <-. do 3 eexists. split; [reflexivity|].
    fold p error. cbn [attr labelOf kids find fst snd String.eqb Ascii.eqb
      Bool.eqb fmap option_fmap option_map].
    repeat (split; [reflexivity|]).
    destruct (truthy error); destruct Hblock as (-> & Hid & He);
      (split; [reflexivity|split; assumption]).
  - injection Hr as <-. do 3 eexists. split; [reflexivity|].
    fold p error. cbn [attr labelOf kids find fst snd String.eqb Ascii.eqb
      Bool.eqb fmap option_fmap option_map].
    repeat (split; [reflexivity|]).
    destruct (truthy error); destruct Hblock as (-> & Hid & He);
      (split; [reflexivity|split; assumption]).
  - unfold SelectParamEditor_render in Hr. fold p error in Hr.
    destruct (kind p); try done. injection Hr as <-.
    do 3 eexists. split; [reflexivity|].
    cbn [attr labelOf kids find fst snd String.eqb Ascii.eqb
      Bool.eqb fmap option_fmap option_map].
    repeat (split; [reflexivity|]).
    destruct (truthy error); destruct Hblock as (-> & Hid & He);
      (split; [reflexivity|split; assumption]).
Qed.

(** ** The element of the whole component *)

Section Component.

Lemma default_renders (host : nat -> RendererProps.t -> option Element)
    (p : Param) (rp : RendererProps.t) :
  RendererProps.param rp = p ->
  exists r e, defaultRenderers !! type p = Some r /\ renderWith host r rp = Some e.
Proof.
  intros Hp. rewrite defaultRenderers_lookup. unfold type.
  destruct (kind p) as [|mn mx|options] eqn:Hkind.
  - do 2 eexists. by split.
  - do 2 eexists. by split.
  - exists SelectParamEditor. eexists. split; [done|].
    cbn [renderWith]. unfold SelectParamEditor_render. by rewrite Hp, Hkind.
Qed.

Lemma control_renders (host : nat -> RendererProps.t -> option Element)
    (s : Session) (k : nat) (r : option Renderer) (rp : RendererProps.t) :
  host_override host (renderers (props s)) ->
  controls s !! k = Some (r, rp) ->
  exists r0 e, r = Some r0 /\ renderWith host r0 rp = Some e.
Proof.
  intros Hov (param & Hk & -> & ->)%controls_lookup.
  set (rp := {| RendererProps.param := param |}).
  destruct (default_renders host param rp eq_refl) as (rd & ed & Hrd & Hed).
  unfold useRenders. destruct (renderers (props s)) as [o|]; cbn in Hov.
  - rewrite lookup_union. destruct (o !! type param) as [ro|] eqn:Ho.
    + destruct (Hov _ _ Ho) as (n & -> & Hn). destruct (Hn rp) as [e He].
      exists (HostRenderer n), e. rewrite Hrd. split; [reflexivity|exact He].
    + exists rd, ed. rewrite Hrd. split; [reflexivity|exact Hed].
  - exists rd, ed. by split.
Qed.

End Component.

(** X24. With no override, or with an override made of renderers of the
    host that return an element, the component always renders, in every
    session and under every theme scope: select controls are only ever
    built for select parameters.  The element carries the theme in
    [data-theme]; its children are, in the order of the schema, what the
    renderer of each parameter returns for the props of that parameter,
    followed by the "Validate & Log" button and the "Reset" button. *)
Theorem component_renders (host : nat -> RendererProps.t -> option Element)
    (c : ThemeScope) (s : Session) :
  host_override host (renderers (props s)) ->
  exists root, ParamEditor_render host c s = Some root /\
    attr "data-theme" root = Some (JStr (dataTheme (theme c))) /\
    length (kids root) = length (params (props s)) + 2 /\
    (forall k r rp, controls s !! k = Some (r, rp) ->
       exists r0, r = Some r0 /\ renderWith host r0 rp = kids root !! k) /\
    exists validateButton resetButton,
      drop (length (params (props s))) (kids root) = [validateButton; resetButton] /\
      attr "onClick" validateButton = Some (JOnClick ClickValidate) /\
      attr "onClick" resetButton = Some (JOnClick ClickReset).
Proof.
  intros Hov. unfold ParamEditor_render.
  set (f := fun rc : option Renderer * RendererProps.t =>
              r ← fst rc; renderWith host r (snd rc)).
  assert (Hall : Forall (is_Some ∘ f) (controls s)).
  { apply Forall_lookup. intros k [r rp] Hk.
    destruct (control_renders host s k r rp Hov Hk) as (r0 & e & -> & He).
    exists e. by cbn. }
  apply mapM_is_Some_2 in Hall as [rendered Hm]. rewrite Hm. cbn.
  eexists. split; [reflexivity|]. cbn [attr kids find fst snd String.eqb
    Ascii.eqb Bool.eqb fmap option_fmap option_map].
  pose proof (length_mapM _ _ _ Hm) as Hlen.
  assert (Hlenc : length (controls s) = length (params (props s)))
    by (unfold controls; apply length_map).
  split; [done|]. split; [rewrite length_app; simpl; lia|]. split.
  - intros k r rp Hk. apply mapM_Some in Hm.
    destruct (Forall2_lookup_l _ _ _ _ _ Hm Hk) as (e & He & Hf).
    unfold f in Hf. cbn in Hf. destruct r as [r0|]; [|done].
    exists r0. split; [done|]. rewrite lookup_app_l; [by rewrite He|].
    by apply lookup_lt_Some in He.
  - do 2 eexists. split; [rewrite drop_app_length'; [reflexivity|lia]|].
    by split.
Qed.

(** ** The theorems at concrete inputs *)

Lemma change_commute_witness :
  perform (perform (mount formProps) (Change 1 "a")) (Change 2 "7")
  = perform (perform (mount formProps) (Change 2 "7")) (Change 1 "a").
Proof. apply (change_commute (mount formProps) 1 2 "a" "7"). lia. Defined.

Lemma mount_getModel_round_trip_witness :
  getModel (handle (mount formProps)) = formModel.
Proof.
  apply (mount_getModel_round_trip [labelParam; sizeParam; modeParam] formModel None).
  - refine (bool_decide_unpack _ _). vm_compute. exact I.
  - reflexivity.
Defined.

Lemma ids_follow_schema_witness :
  let evs := [Do (Change 2 "7"); SetProps formProps; Do ClickValidate; Do CallReset] in
  map paramId (values (run (mount formProps) evs)) = [1%Z; 2%Z; 3%Z] /\
  length (paramValues (getModel (handle (run (mount formProps) evs)))) = 3.
Proof.
  apply (ids_follow_schema formProps
           [Do (Change 2 "7"); SetProps formProps; Do ClickValidate; Do CallReset]).
  repeat constructor.
Defined.

Lemma errors_only_required_witness :
  errors (run (mount formProps) [Do (Change 2 ""); Do ClickValidate]) !! 2%Z
  = Some "Required field" /\ "Required field" = "Required field".
Proof.
  split; [vm_compute; reflexivity|].
  apply (errors_only_required formProps [Do (Change 2 ""); Do ClickValidate] 2).
  vm_compute. reflexivity.
Defined.

Lemma errors_keys_in_schema_witness : 2%Z ∈ map id (params formProps).
Proof.
  apply (errors_keys_in_schema formProps [Do (Change 2 ""); Do ClickValidate] 2).
  - repeat constructor.
  - exists "Required field". vm_compute. reflexivity.
Defined.

Lemma no_error_before_validation_witness :
  errors (run (mount formProps)
              [Do (Change 2 ""); SetProps propsHi; Do ClickReset; Do (Change 1 "")])
  = ∅.
Proof.
  apply (no_error_before_validation formProps
           [Do (Change 2 ""); SetProps propsHi; Do ClickReset; Do (Change 1 "")]).
  repeat constructor.
Defined.

Lemma nonempty_edit_passes_witness :
  let s := run (mount formProps) [Do (Change 2 ""); Do ClickValidate] in
  errors (perform (perform s (Change 2 "7")) ClickValidate) !! 2%Z = None.
Proof.
  apply (nonempty_edit_passes
           (run (mount formProps) [Do (Change 2 ""); Do ClickValidate]) 2 "7").
  discriminate.
Defined.

Lemma props_never_reseed_witness :
  let evs := [Do (Change 1 "x"); SetProps propsBye; Do ClickValidate;
              SetProps propsRed; Do (Change 1 "y")] in
  values (run (mount propsHi) evs)
  = values (run (mount propsHi) (List.filter is_Do evs)) /\
  errors (run (mount propsHi) evs)
  = errors (run (mount propsHi) (List.filter is_Do evs)).
Proof.
  apply (props_never_reseed propsHi
           [Do (Change 1 "x"); SetProps propsBye; Do ClickValidate;
            SetProps propsRed; Do (Change 1 "y")]).
  repeat constructor.
Defined.

Lemma typing_shows_witness :
  exists c', controls (perform (mount formProps) (Change 2 "7")) !! 1
             = Some (Some NumberParamEditor, c') /\
    RendererProps.param c' = sizeParam /\
    RendererProps.value c'
    = (if decide (2%Z ∈ map paramId (values (mount formProps))) then "7" else "") /\
    RendererProps.error c' = None.
Proof.
  apply (typing_shows (mount formProps) 1 (Some NumberParamEditor)
           (controlOf sizeParam "5" None) "7").
  vm_compute. reflexivity.
Defined.


Lemma control_shows_entry_witness :
  let s := run (mount formProps) [Do (Change 2 "7"); SetProps formProps] in
  exists pv, values s !! 1 = Some pv /\
    paramId pv = 2%Z /\ "7" = value pv /\ None = errors s !! paramId pv.
Proof.
  apply (control_shows_entry formProps [Do (Change 2 "7"); SetProps formProps] 1
           (Some NumberParamEditor) (controlOf sizeParam "7" None)).
  - repeat constructor.
  - vm_compute. reflexivity.
Defined.

Lemma validation_marks_empty_fields_witness :
  Some "Required field"
  = if falsy (RendererProps.value (controlOf sizeParam "" (Some "Required field")))
    then Some "Required field" else None.
Proof.
  apply (validation_marks_empty_fields formProps [Do (Change 2 "")] 1
           (Some NumberParamEditor) (controlOf sizeParam "" (Some "Required field"))).
  - repeat constructor.
  - vm_compute. reflexivity.
Defined.

Lemma reset_keeps_errors_witness :
  let s := run (mount formProps) [Do (Change 2 ""); Do ClickValidate] in
  exists c', controls (perform s ClickReset) !! 1 = Some (Some NumberParamEditor, c') /\
    RendererProps.param c' = sizeParam /\
    RendererProps.error c' = Some "Required field" /\
    RendererProps.value c'
    = match find (fun pv => (paramId pv =? 2)%Z) (paramValues (model (props s))) with
      | Some f => value f
      | None => ""
      end.
Proof.
  apply (reset_keeps_errors
           (run (mount formProps) [Do (Change 2 ""); Do ClickValidate]) 1
           (Some NumberParamEditor) (controlOf sizeParam "" (Some "Required field"))).
  vm_compute. reflexivity.
Defined.

Lemma builtins_accessibility_witness :
  let rp := controlOf modeParam "" (Some "Required field") in
  exists root, SelectParamEditor_render rp = Some root /\
  exists label control block,
    kids root = [label; control; block] /\
    attr "htmlFor" label = Some (JStr (domId modeParam)) /\
    kids label = [Text "Mode"] /\
    attr "id" control = Some (JStr (domId modeParam)) /\
    attr "value" control = Some (JStr "") /\
    attr "onChange" control = Some (JOnChange (RendererProps.onChange rp)) /\
    attr "aria-invalid" control = Some (JBool true) /\
    attr "aria-describedby" control = Some (JStr (errorId modeParam)) /\
    attr "id" block = Some (JStr (errorId modeParam)) /\
    exists e, Some "Required field" = Some e /\ e <> "" /\ kids block = [Text e].
Proof.
  eexists. split; [reflexivity|].
  apply (builtins_accessibility noHost SelectParamEditor
           (controlOf modeParam "" (Some "Required field"))).
  - exact I.
  - reflexivity.
Defined.

Lemma component_renders_witness :
  exists root, ParamEditor_render noHost ThemeProvider (mount formProps) = Some root /\
    attr "data-theme" root = Some (JStr "light") /\
    length (kids root) = 3 + 2 /\
    (forall k r rp, controls (mount formProps) !! k = Some (r, rp) ->
       exists r0, r = Some r0 /\ renderWith noHost r0 rp = kids root !! k) /\
    exists validateButton resetButton,
      drop 3 (kids root) = [validateButton; resetButton] /\
      attr "onClick" validateButton = Some (JOnClick ClickValidate) /\
      attr "onClick" resetButton = Some (JOnClick ClickReset).
Proof. apply (component_renders noHost ThemeProvider (mount formProps)). exact I. Defined.

Lemma dom_ids_distinct_witness :
  domId labelParam = "param-1" /\ errorId sizeParam = "param-2-error" /\
  (domId labelParam = domId sizeParam <-> 1%Z = 2%Z) /\
  (errorId labelParam = errorId sizeParam <-> 1%Z = 2%Z) /\
  errorId labelParam <> domId sizeParam.
Proof.
  split; [reflexivity|]. split; [reflexivity|].
  apply (dom_ids_distinct labelParam sizeParam); reflexivity.
Defined.
